(** * notify-bot-pr-event-action: the notification pipeline of [src/run.ts]

    A shallow embedding of [collectUsersToNotify], [filterUsers],
    [formatComment] and the orchestrator [run], with the properties the
    specification states about them.

    Strings are [string] (sequences of 8-bit characters); the [===] of the
    source on strings is [String.eqb].  A JavaScript [Set<string>] that the
    code iterates is an insertion-ordered list without duplicates
    ([JsSet.t]); the [Set<string>] of machine users, which is only ever
    queried with [has], is a [gset string]. *)

From Stdlib Require Import String Ascii.
From stdpp Require Import base list strings gmap.

Local Open Scope string_scope.
Local Open Scope list_scope.
Local Open Scope stdpp_scope.

(** ** JavaScript [Set<string>]: insertion order, no duplicates *)

Module JsSet.

Definition t := list string.

(** [new Set<string>()] *)
Definition empty : t := [].

(** [s.has(x)] *)
Definition has (x : string) (s : t) : bool := bool_decide (x ∈ s).

(** [s.add(x)]: a no-op when [x] is already a member, otherwise [x] is
    appended at the end of the iteration order. *)
Definition add (x : string) (s : t) : t :=
  if has x s then s else s ++ [x].

(** [Array.from(s)]: the members in insertion order. *)
Definition toArray (s : t) : list string := s.

(** [s.size] *)
Definition size (s : t) : nat := length s.

End JsSet.

(** ** Data model ([src/type.ts] as used by the tests, [src/lib.ts]) *)

(** [type.User] *)
Record User := mkUser {
  login : string;
  resourcePath : string
}.

(** [{ user: User | null }]: a committer or a commit author, whose
    GitHub account may be absent. *)
Record GitActor := mkGitActor {
  user : option User
}.

(** [type.PullRequestCommit], flattened: [node.commit.oid],
    [node.commit.committer], [node.commit.authors.nodes]. *)
Record PullRequestCommit := mkCommit {
  oid : string;
  committer : GitActor;
  authors : list GitActor
}.

(** [type.Review]; the author of a review is a [User], as in the tests'
    [makeReview]. *)
Record Review := mkReview {
  state : string;
  reviewCommit : string;
  author : User
}.

(** [lib.Input] *)
Record Input := mkInput {
  githubToken : string;
  repositoryOwner : string;
  repositoryName : string;
  pullRequestNumber : Z;
  machineUsers : gset string;
  actor : string;
  eventName : string;
  eventAction : string;
  prMerged : bool;
  reviewState : string
}.

(** ** [collectUsersToNotify] *)

(** [if (x.user) { users.add(x.user.login); }] *)
Definition addIfPresent (users : JsSet.t) (x : GitActor) : JsSet.t :=
  match user x with
  | Some u => JsSet.add (login u) users
  | None => users
  end.

(** The body of the loop over [commits]. *)
Definition collectCommit (users : JsSet.t) (node : PullRequestCommit) : JsSet.t :=
  let users := addIfPresent users (committer node) in
  foldl addIfPresent users (authors node).

(** The body of the loop over [reviews]. *)
Definition collectReview (users : JsSet.t) (review : Review) : JsSet.t :=
  if String.eqb (state review) "APPROVED"
  then JsSet.add (login (author review)) users
  else users.

(** The body of the loop over [assignees]. *)
Definition collectAssignee (users : JsSet.t) (assignee : User) : JsSet.t :=
  JsSet.add (login assignee) users.

Definition collectUsersToNotify (input : Input)
    (commits : list PullRequestCommit) (reviews : list Review)
    (assignees : list User) : JsSet.t :=
  let users := JsSet.empty in
  let users := foldl collectCommit users commits in
  let users :=
    if String.eqb (eventName input) "pull_request"
       && String.eqb (eventAction input) "closed"
    then foldl collectReview users reviews
    else users in
  let users := foldl collectAssignee users assignees in
  users.

(** ** [filterUsers] *)

(** [s.includes(sub)]: [sub] occurs in [s] at some position. *)
Fixpoint includes (sub s : string) : bool :=
  String.prefix sub s ||
  match s with
  | EmptyString => false
  | String _ s' => includes sub s'
  end.

(** The callback given to [Array.prototype.filter]. *)
Definition keepUser (actor : string) (machineUsers : gset string)
    (login : string) : bool :=
  if String.eqb login actor then false
  else if includes "[bot]" login then false
  else if bool_decide (login ∈ machineUsers) then false
  else true.

Definition filterUsers (users : JsSet.t) (actor : string)
    (machineUsers : gset string) : list string :=
  List.filter (keepUser actor machineUsers) (JsSet.toArray users).

(** ** [formatComment] *)

(** The action sentence chosen by the [if]/[switch] of [formatComment]. *)
Definition actionOf (input : Input) : string :=
  if String.eqb (eventName input) "pull_request" then
    if prMerged input then "Merged the pull request."
    else if String.eqb (eventAction input) "closed" then "Closed the pull request."
    else "Pull request " +:+ eventAction input +:+ "."
  else if String.eqb (eventName input) "pull_request_review" then
    if String.eqb (reviewState input) "approved" then
      "The pull request was approved."
    else if String.eqb (reviewState input) "changes_requested" then
      "Changes were requested."
    else if String.eqb (reviewState input) "commented" then
      "A comment was left on the pull request."
    else "A review was submitted."
  else "Event: " +:+ eventName input +:+ "/" +:+ eventAction input.

Definition formatComment (users : list string) (input : Input) : string :=
  let mentions := String.concat " " (map (λ u, "@" +:+ u) users) in
  let action := actionOf input in
  mentions +:+ " " +:+ action.

(** ** The orchestrator [run] and its GitHub collaborator

    [src/github.ts] is not among the sources; [run] is embedded over a
    record of its operations.  A connection is one page of a GraphQL
    listing: its nodes and its [pageInfo]. *)

Record PageInfo := mkPageInfo {
  hasNextPage : bool;
  endCursor : option string
}.

Record Connection (A : Type) := mkConnection {
  nodes : list A;
  pageInfo : PageInfo
}.
Arguments mkConnection {A} _ _.
Arguments nodes {A} _.
Arguments pageInfo {A} _.

(** [prData.repository.pullRequest] *)
Record PullRequest := mkPullRequest {
  prCommits : Connection PullRequestCommit;
  prReviews : Connection Review;
  prAssignees : list User
}.

(** The remote operations: the pull request with the first page of each
    listing, the page of commits (of reviews) that follows a cursor, and
    the posting of a comment, which answers with the comment's URL. *)
Record GitHub := mkGitHub {
  getPullRequest : Input → PullRequest;
  commitsAfter : Input → string → Connection PullRequestCommit;
  reviewsAfter : Input → string → Connection Review;
  postComment : Input → string → string
}.

(** [pageInfo.hasNextPage && pageInfo.endCursor]: the cursor to continue
    from, when the page reports a next page and the cursor is truthy
    (neither [null] nor the empty string). *)
Definition nextCursor (p : PageInfo) : option string :=
  if hasNextPage p then
    match endCursor p with
    | Some c => if String.eqb c "" then None else Some c
    | None => None
    end
  else None.

(** Modelled from the spec: [github.listCommits] and [github.listReviews]
    ([src/github.ts] is missing).  The spec gives
    [fetchMoreCommits(owner, repo, prNumber, cursor) → records (repeat while
    more pages exist)]: starting at [cursor], fetch a page, keep its
    records, and continue from the page's cursor while it reports a next
    page.  [fuel] bounds the number of requests; [None] means it ran out. *)
Fixpoint listMore {A : Type} (fetch : string → Connection A) (fuel : nat)
    (cursor : string) : option (list A) :=
  match fuel with
  | O => None
  | S fuel' =>
      let page := fetch cursor in
      match nextCursor (pageInfo page) with
      | Some c =>
          match listMore fetch fuel' c with
          | Some rest => Some (nodes page ++ rest)
          | None => None
          end
      | None => Some (nodes page)
      end
  end.

(** Steps 2 and 3 of [run]: the first page's nodes, followed by the
    additional records when the first page reports a next page. *)
Definition paginate {A : Type} (fetch : string → Connection A) (fuel : nat)
    (first : Connection A) : option (list A) :=
  let items := nodes first in
  match nextCursor (pageInfo first) with
  | Some c =>
      match listMore fetch fuel c with
      | Some additional => Some (items ++ additional)
      | None => None
      end
  | None => Some items
  end.

(** What [run] does to the outside world. *)
Inductive Effect :=
| Info (message : string)
| PostComment (body : string).

(** Steps 5 to 7 of [run]. *)
Definition notify (gh : GitHub) (input : Input) (users : JsSet.t) : list Effect :=
  let filteredUsers := filterUsers users (actor input) (machineUsers input) in
  if Nat.eqb (length filteredUsers) 0 then
    [Info "No users to notify after filtering"]
  else
    let message := formatComment filteredUsers input in
    let htmlUrl := postComment gh input message in
    [PostComment message; Info ("Comment posted: " +:+ htmlUrl)].

Definition run (gh : GitHub) (fuel : nat) (input : Input) : option (list Effect) :=
  let pr := getPullRequest gh input in
  match paginate (commitsAfter gh input) fuel (prCommits pr) with
  | None => None
  | Some commits =>
      match paginate (reviewsAfter gh input) fuel (prReviews pr) with
      | None => None
      | Some reviews =>
          let users := collectUsersToNotify input commits reviews (prAssignees pr) in
          Some (notify gh input users)
      end
  end.

(** ** The specification's vocabulary *)

(** The pages of a remote listing: the first page, then the page each
    cursor leads to, up to the page that reports no next page. *)
Inductive pagesFrom {A : Type} (fetch : string → Connection A)
    : Connection A → list (Connection A) → Prop :=
| pages_last p :
    nextCursor (pageInfo p) = None → pagesFrom fetch p [p]
| pages_more p c ps :
    nextCursor (pageInfo p) = Some c →
    pagesFrom fetch (fetch c) ps →
    pagesFrom fetch p (p :: ps).

(** The records of every page, in order. *)
Definition allNodes {A : Type} (ps : list (Connection A)) : list A :=
  concat (nodes <$> ps).

(** [sub] occurs somewhere in [s]. *)
Definition Contains (sub s : string) : Prop :=
  ∃ before after, s = before +:+ sub +:+ after.

(** Where a username of the candidate set may come from. *)
Inductive Provenance (u : string) (commits : list PullRequestCommit)
    (reviews : list Review) (assignees : list User) : Prop :=
| from_committer c usr :
    c ∈ commits → user (committer c) = Some usr → login usr = u →
    Provenance u commits reviews assignees
| from_author c a usr :
    c ∈ commits → a ∈ authors c → user a = Some usr → login usr = u →
    Provenance u commits reviews assignees
| from_approver r :
    r ∈ reviews → state r = "APPROVED" → login (author r) = u →
    Provenance u commits reviews assignees
| from_assignee a :
    a ∈ assignees → login a = u →
    Provenance u commits reviews assignees.

(** The usernames of the identities of a commit that are present:
    committer first, then the authors in order. *)
Definition presentLogins (c : PullRequestCommit) : list string :=
  omap (λ x, login <$> user x) (committer c :: authors c).

(** Adding the elements of a list to a set, one [add] after the other. *)
Definition addAll (xs : list string) (s : JsSet.t) : JsSet.t :=
  foldl (λ acc x, JsSet.add x acc) s xs.

(** The usernames of the authors of the reviews whose state is
    ["APPROVED"], in order. *)
Definition approverLogins (reviews : list Review) : list string :=
  omap (λ r, if String.eqb (state r) "APPROVED"
             then Some (login (author r)) else None) reviews.

(** The condition under which [collectUsersToNotify] reads the reviews. *)
Definition closedPullRequest (i : Input) : Prop :=
  eventName i = "pull_request" ∧ eventAction i = "closed".

(** The sentence for an event name outside the table's first seven rows,
    as the specification's table has it, and as [formatComment] has it. *)
Definition specFallback (name action : string) : string :=
  "Event: " +:+ name +:+ "/" +:+ action +:+ ".".

Definition codeFallback (name action : string) : string :=
  "Event: " +:+ name +:+ "/" +:+ action.

(** The table of action sentences, one constructor per row, over the
    sentence of the last row. *)
Inductive TableRow (fallback : string → string → string) (i : Input)
    : string → Prop :=
| row_merged :
    eventName i = "pull_request" → prMerged i = true →
    TableRow fallback i "Merged the pull request."
| row_closed :
    eventName i = "pull_request" → prMerged i = false →
    eventAction i = "closed" →
    TableRow fallback i "Closed the pull request."
| row_pull_request_otherwise :
    eventName i = "pull_request" → prMerged i ≠ true →
    ¬ (prMerged i = false ∧ eventAction i = "closed") →
    TableRow fallback i ("Pull request " +:+ eventAction i +:+ ".")
| row_approved :
    eventName i = "pull_request_review" → reviewState i = "approved" →
    TableRow fallback i "The pull request was approved."
| row_changes_requested :
    eventName i = "pull_request_review" →
    reviewState i = "changes_requested" →
    TableRow fallback i "Changes were requested."
| row_commented :
    eventName i = "pull_request_review" → reviewState i = "commented" →
    TableRow fallback i "A comment was left on the pull request."
| row_review_otherwise :
    eventName i = "pull_request_review" →
    reviewState i ≠ "approved" → reviewState i ≠ "changes_requested" →
    reviewState i ≠ "commented" →
    TableRow fallback i "A review was submitted."
| row_other_event :
    eventName i ≠ "pull_request" → eventName i ≠ "pull_request_review" →
    TableRow fallback i (fallback (eventName i) (eventAction i)).

(** The comment ["@u1 @u2 ... @uN <sentence>"], written out mention by
    mention: what follows the first mention. *)
Fixpoint afterFirstMention (rest : list string) (sentence : string) : string :=
  match rest with
  | [] => " " +:+ sentence
  | u :: rest' => " @" +:+ u +:+ afterFirstMention rest' sentence
  end.

Definition mentionLine (users : list string) (sentence : string) : string :=
  match users with
  | [] => " " +:+ sentence
  | u :: rest => "@" +:+ u +:+ afterFirstMention rest sentence
  end.

(** ** [main]: the input of [run], read from the action's environment *)

(** [context.payload.pull_request], when the event carries one: its
    [number], and [merged], which a payload may lack. *)
Record PullRequestPayload := mkPullRequestPayload {
  number : Z;
  merged : option bool
}.

(** [context.payload.review] with its [state]. *)
Record ReviewPayload := mkReviewPayload {
  payloadState : option string
}.

(** [context.payload] *)
Record Payload := mkPayload {
  payloadAction : option string;
  payloadPullRequest : option PullRequestPayload;
  payloadReview : option ReviewPayload
}.

(** [context] of [@actions/github], as far as [main] reads it. *)
Record Context := mkContext {
  repoOwner : string;
  repoRepo : string;
  contextActor : string;
  contextEventName : string;
  payload : Payload
}.

(** What [@actions/core] answers: [getInput("github_token")] and
    [getMultilineInput("machine_users")], the lines of the input. *)
Record ActionInputs := mkActionInputs {
  inputGithubToken : string;
  inputMachineUsers : list string
}.

(** [a.startsWith("#")] *)
Definition isCommentLine (a : string) : bool := String.prefix "#" a.

(** The [lib.Input] that [main] builds; [x?.f] is the field of an optional
    object and [x ?? d] its default. *)
Definition buildInput (inputs : ActionInputs) (context : Context) : Input :=
  let machineUsersRaw := inputMachineUsers inputs in
  let machineUsers : gset string :=
    list_to_set (List.filter (λ a, negb (isCommentLine a)) machineUsersRaw) in
  mkInput
    (inputGithubToken inputs)
    (repoOwner context)
    (repoRepo context)
    (default 0%Z (number <$> payloadPullRequest (payload context)))
    machineUsers
    (contextActor context)
    (contextEventName context)
    (default "" (payloadAction (payload context)))
    (default false (payloadPullRequest (payload context) ≫= merged))
    (default "" (payloadReview (payload context) ≫= payloadState)).

Definition main (gh : GitHub) (fuel : nat) (inputs : ActionInputs)
    (context : Context) : option (list Effect) :=
  run gh fuel (buildInput inputs context).

(** ** Vocabulary for the order of the candidate set *)

(** A list without its repetitions: each element stays where it first
    occurs. *)
Fixpoint firstOccurrences (l : list string) : list string :=
  match l with
  | [] => []
  | x :: l' => x :: filter (λ y, y ≠ x) (firstOccurrences l')
  end.

(** The usernames the sources contribute, in the order the loops of
    [collectUsersToNotify] visit them: commit by commit the committer and
    then the authors, then the approvers, then the assignees. *)
Definition sourceLogins (commits : list PullRequestCommit)
    (reviews : list Review) (assignees : list User) : list string :=
  (commits ≫= presentLogins) ++ approverLogins reviews ++ (login <$> assignees).

(** The reviews that count for an input: all of them on a closed pull
    request, none otherwise. *)
Definition countedReviews (i : Input) (reviews : list Review) : list Review :=
  if decide (eventName i = "pull_request" ∧ eventAction i = "closed")
  then reviews else [].

(** The comments among the effects of a run. *)
Definition postedComments (effects : list Effect) : list string :=
  omap (λ e, match e with PostComment body => Some body | Info _ => None end)
    effects.

(** ** Fixtures of the repository's unit tests ([src/run.test.ts]) *)

Definition makeInput : Input :=
  mkInput "" "owner" "repo" 1 ∅ "actor" "pull_request" "closed" true "".

Definition withEvent (i : Input) (name action : string) : Input :=
  mkInput (githubToken i) (repositoryOwner i) (repositoryName i)
    (pullRequestNumber i) (machineUsers i) (actor i) name action
    (prMerged i) (reviewState i).

Definition makeUser (l : string) : User := mkUser l ("/" +:+ l).

Definition makeActor (l : option string) : GitActor :=
  mkGitActor (makeUser <$> l).

Definition makeCommit (c : option string) (als : list (option string))
    : PullRequestCommit :=
  mkCommit "abc123" (makeActor c) (makeActor <$> als).

Definition makeReview (l st : string) : Review :=
  mkReview st "abc123" (makeUser l).

(** An event outside [pull_request] and [pull_request_review]. *)
Definition pushInput : Input := withEvent makeInput "push" "opened".

(** The same event as [makeInput] seen by another run: every field that
    [formatComment] does not read differs. *)
Definition otherRunInput : Input :=
  mkInput "ghs_secret" "someone" "elsewhere" 42 {["ci-bot"]} "mallory"
    "pull_request" "closed" true "".

(** A pull request whose commits come in three pages and whose reviews
    come in two. *)
Definition demoCommitPage (cursor : string) : Connection PullRequestCommit :=
  if String.eqb cursor "c1"
  then mkConnection [makeCommit (Some "dave") [Some "alice"]]
         (mkPageInfo true (Some "c2"))
  else mkConnection [makeCommit None [None; Some "erin"]]
         (mkPageInfo false None).

Definition demoReviewPage (cursor : string) : Connection Review :=
  mkConnection [makeReview "frank" "APPROVED"] (mkPageInfo false (Some "r2")).

Definition demoPullRequest : PullRequest :=
  mkPullRequest
    (mkConnection [makeCommit (Some "alice") []] (mkPageInfo true (Some "c1")))
    (mkConnection [makeReview "bob" "COMMENTED"] (mkPageInfo true (Some "r1")))
    [makeUser "carol"].

Definition demoGitHub : GitHub :=
  mkGitHub (λ _, demoPullRequest) (λ _, demoCommitPage) (λ _, demoReviewPage)
    (λ _ _, "https://github.com/owner/repo/pull/1#issuecomment-1").

(** Two pull requests of which one listing reports a next page without a
    usable cursor while the other listing has further pages: the commits
    with an empty cursor, the reviews with none. *)
Definition commitCursorlessPullRequest : PullRequest :=
  mkPullRequest
    (mkConnection [makeCommit (Some "alice") []] (mkPageInfo true (Some "")))
    (mkConnection [makeReview "bob" "COMMENTED"] (mkPageInfo true (Some "r1")))
    [makeUser "carol"].

Definition reviewCursorlessPullRequest : PullRequest :=
  mkPullRequest
    (mkConnection [makeCommit (Some "alice") []] (mkPageInfo true (Some "c1")))
    (mkConnection [makeReview "bob" "APPROVED"] (mkPageInfo true None))
    [makeUser "carol"].

Definition githubOf (pr : PullRequest) : GitHub :=
  mkGitHub (λ _, pr) (λ _, demoCommitPage) (λ _, demoReviewPage)
    (λ _ _, "https://github.com/owner/repo/pull/1#issuecomment-1").

(** A [pull_request]/[closed] event, merged, triggered by [alice], with a
    commented line among the machine users. *)
Definition demoInputs : ActionInputs :=
  mkActionInputs "ghs_secret" ["# automation accounts"; "frank"; "#carol"].

Definition demoContext : Context :=
  mkContext "owner" "repo" "alice" "pull_request"
    (mkPayload (Some "closed") (Some (mkPullRequestPayload 7 (Some true))) None).

(** ** Unit tests of the repository, replayed *)

Example test_skips_null_users :
  collectUsersToNotify makeInput [makeCommit None [None]] [] [] = [].
Proof. reflexivity. Qed.

Example test_deduplicates_users :
  collectUsersToNotify makeInput [makeCommit (Some "user1") [Some "user1"]]
    [] [makeUser "user1"] = ["user1"].
Proof. vm_compute. reflexivity. Qed.

Example test_no_approvers_on_review_event :
  collectUsersToNotify (withEvent makeInput "pull_request_review" "submitted")
    [] [makeReview "approver1" "APPROVED"] [] = [].
Proof. reflexivity. Qed.

Example test_filters_bot :
  filterUsers ["dependabot[bot]"; "user1"] "actor" ∅ = ["user1"].
Proof. vm_compute. reflexivity. Qed.

Example test_filters_machine_user :
  filterUsers ["ci-bot"; "user1"] "actor" {["ci-bot"]} = ["user1"].
Proof. vm_compute. reflexivity. Qed.

Example test_formats_closed :
  formatComment ["user1"]
    (mkInput "" "owner" "repo" 1 ∅ "actor" "pull_request" "closed" false "")
  = "@user1 Closed the pull request.".
Proof. reflexivity. Qed.

Example test_formats_changes_requested :
  formatComment ["user1"]
    (mkInput "" "owner" "repo" 1 ∅ "actor" "pull_request_review" "closed"
       true "changes_requested")
  = "@user1 Changes were requested.".
Proof. reflexivity. Qed.

Example test_formats_merged :
  formatComment ["user1"; "user2"] makeInput
  = "@user1 @user2 Merged the pull request.".
Proof. reflexivity. Qed.

(** ** Insertion-ordered sets *)

Lemma eqb_true_iff (a b : string) : String.eqb a b = true ↔ a = b.
Proof. apply String.eqb_eq. Qed.

Lemma eqb_false_iff (a b : string) : String.eqb a b = false ↔ a ≠ b.
Proof. apply String.eqb_neq. Qed.

Lemma elem_of_add (u x : string) (s : JsSet.t) :
  u ∈ JsSet.add x s ↔ u ∈ s ∨ u = x.
Proof.
  unfold JsSet.add, JsSet.has. case_bool_decide as Hx.
  - split; [by left|]. intros [?| ->]; done.
  - rewrite elem_of_app, list_elem_of_singleton. done.
Qed.

Lemma NoDup_add (x : string) (s : JsSet.t) : NoDup s → NoDup (JsSet.add x s).
Proof.
  intros Hs. unfold JsSet.add, JsSet.has. case_bool_decide as Hx; [done|].
  apply NoDup_app. split_and!; [done| |apply NoDup_singleton].
  intros y Hy ->%list_elem_of_singleton. done.
Qed.

Lemma addAll_app (xs ys : list string) (s : JsSet.t) :
  addAll (xs ++ ys) s = addAll ys (addAll xs s).
Proof. unfold addAll. apply foldl_app. Qed.

Lemma elem_of_addAll (u : string) (xs : list string) (s : JsSet.t) :
  u ∈ addAll xs s ↔ u ∈ s ∨ u ∈ xs.
Proof.
  revert s. induction xs as [|x xs IH]; intros s; simpl.
  - rewrite elem_of_nil. tauto.
  - change (addAll (x :: xs) s) with (addAll xs (JsSet.add x s)).
    rewrite IH, elem_of_add, elem_of_cons. tauto.
Qed.

Lemma NoDup_addAll (xs : list string) (s : JsSet.t) :
  NoDup s → NoDup (addAll xs s).
Proof.
  revert s. induction xs as [|x xs IH]; intros s Hs; [done|].
  apply IH. by apply NoDup_add.
Qed.

(** ** The loops of [collectUsersToNotify] as [addAll] *)

Lemma foldl_addIfPresent (xs : list GitActor) (s : JsSet.t) :
  foldl addIfPresent s xs = addAll (omap (λ x, login <$> user x) xs) s.
Proof.
  revert s. induction xs as [|x xs IH]; intros s; [done|].
  simpl. rewrite IH. unfold addIfPresent. by destruct (user x).
Qed.

Lemma collectCommit_addAll (s : JsSet.t) (c : PullRequestCommit) :
  collectCommit s c = addAll (presentLogins c) s.
Proof.
  unfold collectCommit, presentLogins.
  by rewrite <- (foldl_addIfPresent (committer c :: authors c)).
Qed.

Lemma foldl_collectCommit (cs : list PullRequestCommit) (s : JsSet.t) :
  foldl collectCommit s cs = addAll (cs ≫= presentLogins) s.
Proof.
  revert s. induction cs as [|c cs IH]; intros s; [done|].
  simpl. rewrite IH, collectCommit_addAll. symmetry. apply addAll_app.
Qed.

Lemma foldl_collectReview (rs : list Review) (s : JsSet.t) :
  foldl collectReview s rs = addAll (approverLogins rs) s.
Proof.
  revert s. induction rs as [|r rs IH]; intros s; [done|].
  simpl. rewrite IH. unfold collectReview, approverLogins. simpl.
  by destruct (String.eqb (state r) "APPROVED").
Qed.

Lemma foldl_collectAssignee (us : list User) (s : JsSet.t) :
  foldl collectAssignee s us = addAll (login <$> us) s.
Proof.
  revert s. induction us as [|a us IH]; intros s; [done|].
  simpl. by rewrite IH.
Qed.

(** The candidate set in terms of the usernames each source contributes. *)
Lemma collect_addAll (i : Input) (cs : list PullRequestCommit)
    (rs : list Review) (us : list User) :
  collectUsersToNotify i cs rs us
  = addAll (login <$> us)
      (addAll (if String.eqb (eventName i) "pull_request"
                  && String.eqb (eventAction i) "closed"
               then approverLogins rs else [])
         (addAll (cs ≫= presentLogins) [])).
Proof.
  unfold collectUsersToNotify, JsSet.empty.
  rewrite foldl_collectAssignee, foldl_collectCommit.
  destruct (_ && _); [by rewrite foldl_collectReview | done].
Qed.

Lemma NoDup_collect (i : Input) (cs : list PullRequestCommit)
    (rs : list Review) (us : list User) :
  NoDup (collectUsersToNotify i cs rs us).
Proof.
  rewrite collect_addAll. do 3 apply NoDup_addAll. apply NoDup_nil_2.
Qed.

Lemma closedPullRequest_eqb (i : Input) :
  String.eqb (eventName i) "pull_request"
    && String.eqb (eventAction i) "closed" = true
  ↔ closedPullRequest i.
Proof.
  unfold closedPullRequest.
  by rewrite andb_true_iff, !eqb_true_iff.
Qed.

Lemma elem_of_presentLogins (u : string) (cs : list PullRequestCommit) :
  u ∈ cs ≫= presentLogins ↔
  ∃ c x usr, c ∈ cs ∧ (x = committer c ∨ x ∈ authors c)
             ∧ user x = Some usr ∧ login usr = u.
Proof.
  rewrite list_elem_of_bind. unfold presentLogins. split.
  - intros (c & Hu & Hc). apply list_elem_of_omap in Hu as (x & Hx & Hux).
    destruct (user x) as [usr|] eqn:Husr; simplify_eq/=.
    exists c, x, usr. apply elem_of_cons in Hx. done.
  - intros (c & x & usr & Hc & Hx & Husr & <-). exists c. split; [|done].
    apply list_elem_of_omap. exists x. rewrite Husr, elem_of_cons. done.
Qed.

Lemma elem_of_approverLogins (u : string) (rs : list Review) :
  u ∈ approverLogins rs ↔
  ∃ r, r ∈ rs ∧ state r = "APPROVED" ∧ login (author r) = u.
Proof.
  unfold approverLogins. rewrite list_elem_of_omap. split.
  - intros (r & Hr & Hs).
    destruct (String.eqb (state r) "APPROVED") eqn:E; simplify_eq/=.
    apply eqb_true_iff in E. eauto.
  - intros (r & Hr & Hs & <-). exists r. split; [done|].
    apply eqb_true_iff in Hs. by rewrite Hs.
Qed.

(** Membership in the candidate set, source by source. *)
Lemma elem_of_collect (u : string) (i : Input) (cs : list PullRequestCommit)
    (rs : list Review) (us : list User) :
  u ∈ collectUsersToNotify i cs rs us ↔
    u ∈ cs ≫= presentLogins
    ∨ (closedPullRequest i ∧ u ∈ approverLogins rs)
    ∨ u ∈ login <$> us.
Proof.
  rewrite collect_addAll, !elem_of_addAll, elem_of_nil.
  rewrite <- closedPullRequest_eqb.
  destruct (_ && _); rewrite ?elem_of_nil; intuition congruence.
Qed.

Lemma NoDup_occurs_once (u : string) (l : list string) :
  NoDup l → u ∈ l → length (filter (λ x, x = u) l) = 1.
Proof.
  induction 1 as [|x l Hx Hl IH]; intros Hu; [by apply elem_of_nil in Hu|].
  rewrite filter_cons. case_decide as Hxu.
  - subst x. simpl. f_equal. apply length_zero_iff_nil.
    apply elem_of_nil_inv. intros y Hy.
    apply list_elem_of_filter in Hy as [-> Hy']. done.
  - apply elem_of_cons in Hu as [->|Hu]; [done|]. by apply IH.
Qed.

Lemma Provenance_sources (u : string) (cs : list PullRequestCommit)
    (rs : list Review) (us : list User) :
  Provenance u cs rs us ↔
  u ∈ cs ≫= presentLogins ∨ u ∈ approverLogins rs ∨ u ∈ login <$> us.
Proof.
  rewrite elem_of_presentLogins, elem_of_approverLogins, list_elem_of_fmap.
  split.
  - intros [c usr Hc Husr Hu | c a usr Hc Ha Husr Hu | r Hr Hs Hu | a Ha Hu].
    + left. exists c, (committer c), usr. auto.
    + left. exists c, a, usr. auto.
    + right; left. eauto.
    + right; right. eauto.
  - intros [(c & x & usr & Hc & [-> | Hx] & Husr & Hu)
           |[(r & Hr & Hs & Hu) | (a & -> & Ha)]].
    + by eapply from_committer.
    + by eapply from_author.
    + by eapply from_approver.
    + by eapply from_assignee.
Qed.

(** A commit none of whose identities is present can be left out. *)
Corollary absent_commit_contributes_nothing (i : Input)
    (cs1 cs2 : list PullRequestCommit) (c : PullRequestCommit)
    (rs : list Review) (us : list User) :
  user (committer c) = None → Forall (λ a, user a = None) (authors c) →
  collectUsersToNotify i (cs1 ++ c :: cs2) rs us
  = collectUsersToNotify i (cs1 ++ cs2) rs us.
Proof.
  intros Hc Ha. rewrite !collect_addAll, !bind_app, bind_cons.
  assert (presentLogins c = []) as ->; [|done].
  unfold presentLogins. simpl. rewrite Hc. simpl.
  induction Ha as [|a l Hnone _ IH]; [done|]. simpl. by rewrite Hnone.
Qed.

(** ** The collector: claims *)

(** C1. A review author's username enters the candidate set through the
    reviews if and only if the event is [pull_request]/[closed] and the
    review's state is exactly ["APPROVED"]: the members of the result are
    those of the result computed without any review, together with the
    authors of the approved reviews when the event is a closed pull
    request.  For the event [pull_request_review], whatever the action,
    the reviews do not change the result at all. *)
Theorem C1_approvers_only_on_closed_pull_request (i : Input)
    (cs : list PullRequestCommit) (rs : list Review) (us : list User) :
  (∀ u, u ∈ collectUsersToNotify i cs rs us ↔
        u ∈ collectUsersToNotify i cs [] us
        ∨ (closedPullRequest i
           ∧ ∃ r, r ∈ rs ∧ state r = "APPROVED" ∧ login (author r) = u))
  ∧ (∀ action,
       collectUsersToNotify (withEvent i "pull_request_review" action) cs rs us
       = collectUsersToNotify (withEvent i "pull_request_review" action) cs [] us).
Proof.
  split.
  - intros u. rewrite !elem_of_collect, <- elem_of_approverLogins.
    change (approverLogins []) with (@nil string). rewrite elem_of_nil. tauto.
  - intros action. by rewrite !collect_addAll.
Qed.

(** C6. The members of the candidate set do not depend on the order of the
    commits, of the reviews or of the assignees, and every member occurs
    exactly once, however many sources contribute it. *)
Theorem C6_collect_is_a_set_union (i : Input)
    (cs cs' : list PullRequestCommit) (rs rs' : list Review)
    (us us' : list User) :
  cs ≡ₚ cs' → rs ≡ₚ rs' → us ≡ₚ us' →
  (∀ u, u ∈ collectUsersToNotify i cs rs us
        ↔ u ∈ collectUsersToNotify i cs' rs' us')
  ∧ collectUsersToNotify i cs rs us ≡ₚ collectUsersToNotify i cs' rs' us'
  ∧ NoDup (collectUsersToNotify i cs rs us)
  ∧ (∀ u, u ∈ collectUsersToNotify i cs rs us →
          length (filter (λ x, x = u) (collectUsersToNotify i cs rs us)) = 1).
Proof.
  intros Hcs Hrs Hus.
  assert (∀ u, u ∈ collectUsersToNotify i cs rs us
               ↔ u ∈ collectUsersToNotify i cs' rs' us') as Hmem.
  { intros u. rewrite !elem_of_collect.
    unfold approverLogins. by rewrite Hcs, Hrs, Hus. }
  split_and!.
  - done.
  - apply NoDup_Permutation; [apply NoDup_collect..|done].
  - apply NoDup_collect.
  - intros u. apply NoDup_occurs_once, NoDup_collect.
Qed.

(** C7. Absent identities contribute nothing: the candidate set depends on
    the commits only through the usernames of the committers and authors
    that are present, so two commit lists that differ only in absent
    identities give the same set.  The function is defined on every input,
    and its members are usernames. *)
Theorem C7_absent_identities_are_skipped (i : Input)
    (cs cs' : list PullRequestCommit) (rs : list Review) (us : list User) :
  cs ≫= presentLogins = cs' ≫= presentLogins →
  collectUsersToNotify i cs rs us = collectUsersToNotify i cs' rs us.
Proof. intros H. by rewrite !collect_addAll, H. Qed.

(** C10. Every member of the candidate set is the username of a present
    committer, of a present commit author, of the author of a review whose
    state is ["APPROVED"], or of an assignee. *)
Theorem C10_no_junk (i : Input) (cs : list PullRequestCommit)
    (rs : list Review) (us : list User) (u : string) :
  u ∈ collectUsersToNotify i cs rs us → Provenance u cs rs us.
Proof.
  rewrite elem_of_collect, Provenance_sources.
  intros [Hcommit | [[_ Hreview] | Hassignee]]; auto.
Qed.

(** ** Strings *)

Lemma append_cons (a : ascii) (s t : string) :
  String a s +:+ t = String a (s +:+ t).
Proof. reflexivity. Qed.

Lemma append_assoc (s t r : string) : (s +:+ t) +:+ r = s +:+ (t +:+ r).
Proof.
  induction s as [|a s IH]; [reflexivity|].
  rewrite !append_cons. by f_equal.
Qed.

Lemma prefix_iff (sub s : string) :
  String.prefix sub s = true ↔ ∃ after, s = sub +:+ after.
Proof.
  revert s. induction sub as [|a sub IH]; intros s.
  - split; [|by destruct s]. intros _. by exists s.
  - destruct s as [|b s]; simpl.
    + split; [done|]. by intros [after ?].
    + destruct (ascii_dec a b) as [->|Hab].
      * rewrite IH. split; intros [after H]; exists after.
        -- by rewrite append_cons, <- H.
        -- rewrite append_cons in H. by simplify_eq.
      * split; [done|]. intros [after H].
        rewrite append_cons in H. by simplify_eq.
Qed.

(** [includes] decides the occurrence of a substring. *)
Lemma includes_iff (sub s : string) :
  includes sub s = true ↔ Contains sub s.
Proof.
  unfold Contains. induction s as [|b s IH].
  - change (includes sub "") with (String.prefix sub "" || false).
    rewrite orb_false_r, prefix_iff. split.
    + intros [after H]. by exists "", after.
    + intros ([|c before] & after & H); [by exists after|done].
  - change (includes sub (String b s))
      with (String.prefix sub (String b s) || includes sub s).
    rewrite orb_true_iff, prefix_iff, IH. split.
    + intros [[after H] | (before & after & H)].
      * by exists "", after.
      * exists (String b before), after. by rewrite append_cons, <- H.
    + intros ([|c before] & after & H).
      * left. by exists after.
      * right. rewrite append_cons in H. simplify_eq. by exists before, after.
Qed.

#[global] Instance Contains_dec (sub s : string) : Decision (Contains sub s).
Proof.
  destruct (includes sub s) eqn:E.
  - left. by apply includes_iff.
  - right. intros H%includes_iff. congruence.
Defined.

(** ** The filter *)

Lemma keepUser_iff (actor : string) (mu : gset string) (u : string) :
  keepUser actor mu u = true ↔
  u ≠ actor ∧ ¬ Contains "[bot]" u ∧ u ∉ mu.
Proof.
  unfold keepUser. rewrite <- includes_iff.
  destruct (String.eqb u actor) eqn:Ea.
  { apply eqb_true_iff in Ea. split; [done|]. by intros [? _]. }
  apply eqb_false_iff in Ea.
  destruct (includes "[bot]" u).
  { split; [done|]. intros (_ & H & _). by destruct H. }
  case_bool_decide as Hm.
  - split; [done|]. by intros (_ & _ & ?).
  - split; [|done]. intros _. split_and!; [done| |done]. by intros ?.
Qed.

Lemma list_filter_sublist {A : Type} (f : A → bool) (l : list A) :
  List.filter f l `sublist_of` l.
Proof.
  induction l as [|x l IH]; simpl; [done|].
  destruct (f x); by constructor.
Qed.

Lemma list_filter_NoDup {A : Type} (f : A → bool) (l : list A) :
  NoDup l → NoDup (List.filter f l).
Proof. intros H. eapply sublist_NoDup; [exact H|apply list_filter_sublist]. Qed.

Lemma filterUsers_filter (users : JsSet.t) (actor : string) (mu : gset string) :
  filterUsers users actor mu
  = filter (λ u, u ≠ actor ∧ ¬ Contains "[bot]" u ∧ u ∉ mu)
      (JsSet.toArray users).
Proof.
  unfold filterUsers, JsSet.toArray.
  induction users as [|u users IH]; [done|].
  rewrite filter_cons, <- IH. simpl.
  destruct (keepUser actor mu u) eqn:E; case_decide as H; try done.
  - by apply keepUser_iff in E.
  - apply keepUser_iff in H. congruence.
Qed.

(** C4. [filterUsers] returns the members of the candidate set, in the
    set's insertion order, that differ from the actor, do not contain
    ["[bot]"] anywhere, and are not machine users; it is defined on every
    input and maps the empty set to the empty list. *)
Theorem C4_filterUsers_keeps_exactly (users : JsSet.t) (actor : string)
    (mu : gset string) :
  filterUsers users actor mu
  = filter (λ u, u ≠ actor ∧ ¬ Contains "[bot]" u ∧ u ∉ mu)
      (users : list string)
  ∧ filterUsers users actor mu `sublist_of` users
  ∧ (∀ u, u ∈ filterUsers users actor mu ↔
          u ∈ users ∧ u ≠ actor ∧ ¬ Contains "[bot]" u ∧ u ∉ mu)
  ∧ filterUsers JsSet.empty actor mu = [].
Proof.
  split_and!.
  - exact (filterUsers_filter users actor mu).
  - unfold filterUsers, JsSet.toArray. apply list_filter_sublist.
  - intros u. unfold filterUsers, JsSet.toArray.
    rewrite !list_elem_of_In, filter_In, keepUser_iff. tauto.
  - done.
Qed.

(** C4 on a set of seven: the actor, the two names that contain ["[bot]"]
    (at the end, in the middle) and the machine user go, the others stay
    in the order of the set. *)
Lemma C4_filterUsers_keeps_exactly_witness :
  filterUsers
    ["dora"; "actor"; "bob"; "renovate[bot]"; "x[bot]y"; "ci-bot"; "alice"]
    "actor" {["ci-bot"]}
  = ["dora"; "bob"; "alice"]
  ∧ ["dora"; "bob"; "alice"]
    `sublist_of`
    ["dora"; "actor"; "bob"; "renovate[bot]"; "x[bot]y"; "ci-bot"; "alice"]
  ∧ filterUsers ["actor"; "ci-bot"] "actor" {["ci-bot"]} = [].
Proof.
  destruct (C4_filterUsers_keeps_exactly
              ["dora"; "actor"; "bob"; "renovate[bot]"; "x[bot]y"; "ci-bot";
               "alice"] "actor" {["ci-bot"]}) as (Heq & Hsub & _ & _).
  assert (filter (λ u, u ≠ "actor" ∧ ¬ Contains "[bot]" u ∧ u ∉ ({["ci-bot"]} : gset string))
            ["dora"; "actor"; "bob"; "renovate[bot]"; "x[bot]y"; "ci-bot";
             "alice"]
          = ["dora"; "bob"; "alice"]) as Hval by (by vm_compute).
  rewrite Hval in Heq. split_and!.
  - exact Heq.
  - rewrite <- Heq. exact Hsub.
  - by vm_compute.
Defined.

(** ** The formatter *)

(** The joined mentions followed by a space and the sentence, mention by
    mention. *)
Lemma concat_mentions (u : string) (rest : list string) (sentence : string) :
  String.concat " " (map (λ v, "@" +:+ v) (u :: rest)) +:+ " " +:+ sentence
  = "@" +:+ u +:+ afterFirstMention rest sentence.
Proof.
  revert u. induction rest as [|v rest IH]; intros u.
  - simpl. by rewrite append_assoc.
  - change (String.concat " " (map (λ v, "@" +:+ v) (u :: v :: rest)))
      with (("@" +:+ u) +:+ " "
            +:+ String.concat " " (map (λ v, "@" +:+ v) (v :: rest))).
    rewrite !append_assoc, IH. simpl. by rewrite ?append_assoc.
Qed.

Lemma formatComment_mentionLine (users : list string) (i : Input) :
  formatComment users i = mentionLine users (actionOf i).
Proof.
  unfold formatComment. destruct users as [|u rest]; [done|].
  apply concat_mentions.
Qed.

(** The sentence [formatComment] chooses is the one of the table, with the
    last row as the code has it. *)
Lemma actionOf_row (i : Input) : TableRow codeFallback i (actionOf i).
Proof.
  unfold actionOf.
  destruct (String.eqb (eventName i) "pull_request") eqn:Epr.
  { apply eqb_true_iff in Epr.
    destruct (prMerged i) eqn:Em; [by apply row_merged|].
    destruct (String.eqb (eventAction i) "closed") eqn:Ec.
    - apply eqb_true_iff in Ec. by apply row_closed.
    - apply eqb_false_iff in Ec. apply row_pull_request_otherwise.
      + done.
      + by rewrite Em.
      + by intros [_ ?]. }
  apply eqb_false_iff in Epr.
  destruct (String.eqb (eventName i) "pull_request_review") eqn:Erv.
  { apply eqb_true_iff in Erv.
    destruct (String.eqb (reviewState i) "approved") eqn:E1.
    { apply eqb_true_iff in E1. by apply row_approved. }
    destruct (String.eqb (reviewState i) "changes_requested") eqn:E2.
    { apply eqb_true_iff in E2. by apply row_changes_requested. }
    destruct (String.eqb (reviewState i) "commented") eqn:E3.
    { apply eqb_true_iff in E3. by apply row_commented. }
    apply eqb_false_iff in E1, E2, E3. by apply row_review_otherwise. }
  apply eqb_false_iff in Erv.
  by apply (row_other_event codeFallback).
Qed.

(** The rows of the table exclude one another. *)
Lemma TableRow_functional (fallback : string → string → string) (i : Input)
    (s s' : string) :
  TableRow fallback i s → TableRow fallback i s' → s' = s.
Proof.
  destruct 1; destruct 1; try done; try congruence.
  all: exfalso; eauto.
Qed.

Lemma afterFirstMention_snoc (rest : list string) (sentence tail : string) :
  afterFirstMention rest (sentence +:+ tail)
  = afterFirstMention rest sentence +:+ tail.
Proof.
  induction rest as [|v rest IH]; simpl; [by rewrite append_assoc|].
  by rewrite IH, !append_assoc.
Qed.

Lemma mentionLine_snoc (users : list string) (sentence tail : string) :
  mentionLine users (sentence +:+ tail) = mentionLine users sentence +:+ tail.
Proof.
  destruct users as [|u rest]; simpl; [by rewrite append_assoc|].
  by rewrite afterFirstMention_snoc, !append_assoc.
Qed.

(** C3 (as the code has it). For an event name that is neither
    [pull_request] nor [pull_request_review], the comment is the
    space-joined mentions, a single space, and the sentence
    ["Event: {eventName}/{eventAction}"], which has no trailing period:
    the comment followed by a period is the string the specification's
    table gives. *)
Theorem C3_other_event_sentence (users : list string) (i : Input) :
  eventName i ≠ "pull_request" → eventName i ≠ "pull_request_review" →
  formatComment users i
  = String.concat " " (map (λ u, "@" +:+ u) users) +:+ " "
    +:+ "Event: " +:+ eventName i +:+ "/" +:+ eventAction i
  ∧ formatComment users i
    = mentionLine users (codeFallback (eventName i) (eventAction i))
  ∧ formatComment users i +:+ "."
    = mentionLine users (specFallback (eventName i) (eventAction i)).
Proof.
  intros Hpr%eqb_false_iff Hrv%eqb_false_iff.
  assert (actionOf i = codeFallback (eventName i) (eventAction i)) as Ha.
  { unfold actionOf. by rewrite Hpr, Hrv. }
  split_and!.
  - unfold formatComment. by rewrite Ha.
  - by rewrite formatComment_mentionLine, Ha.
  - rewrite formatComment_mentionLine, Ha, <- mentionLine_snoc.
    f_equal. unfold codeFallback, specFallback. by rewrite !append_assoc.
Qed.

Lemma C3_other_event_sentence_witness :
  (eventName pushInput ≠ "pull_request"
   ∧ eventName pushInput ≠ "pull_request_review")
  ∧ formatComment ["user1"; "user2"] pushInput
    = "@user1 @user2 Event: push/opened".
Proof.
  split; [split; discriminate|].
  destruct (C3_other_event_sentence ["user1"; "user2"] pushInput) as [H _];
    [discriminate..|].
  rewrite H. reflexivity.
Defined.

(** C3, as stated, fails: the sentence of the table's last row, with its
    trailing period, is not what [formatComment] writes for a [push]
    event. *)
Lemma C3_trailing_period_counterexample :
  ∃ users i,
    eventName i ≠ "pull_request" ∧ eventName i ≠ "pull_request_review"
    ∧ formatComment users i = "@user1 Event: push/opened"
    ∧ mentionLine users (specFallback (eventName i) (eventAction i))
      = "@user1 Event: push/opened."
    ∧ formatComment users i
      ≠ mentionLine users (specFallback (eventName i) (eventAction i)).
Proof. exists ["user1"], pushInput. split_and!; done. Qed.

(** C5 (as the code has it). For a non-empty user list the comment is
    ["@u1 @u2 ... @uN <sentence>"], byte for byte, where the sentence is the
    one row of the table that applies, the last row being
    ["Event: {eventName}/{eventAction}"] without a trailing period.  The
    rows carry the precedence: a merged pull request gives
    ["Merged the pull request."] whatever the action, also ["closed"]. *)
Theorem C5_comment_follows_table (u : string) (rest : list string) (i : Input) :
  ∃ s, TableRow codeFallback i s
       ∧ (∀ s', TableRow codeFallback i s' → s' = s)
       ∧ formatComment (u :: rest) i = mentionLine (u :: rest) s.
Proof.
  exists (actionOf i). split_and!.
  - apply actionOf_row.
  - intros s' Hs'. eapply TableRow_functional; [apply actionOf_row|done].
  - apply formatComment_mentionLine.
Qed.

(** C5, as stated, fails on the table's last row: for a [push] event the
    comment is not the mentions followed by the table's sentence. *)
Lemma C5_table_counterexample :
  ∃ users i s,
    users ≠ [] ∧ TableRow specFallback i s
    ∧ formatComment users i ≠ mentionLine users s.
Proof.
  exists ["user1"], pushInput, (specFallback "push" "opened"). split_and!.
  - done.
  - by apply (row_other_event specFallback pushInput).
  - done.
Qed.

(** C8 (as the code has it). For the empty user list the comment is a
    single space followed by the sentence of the row of the table that
    applies, the last row being ["Event: {eventName}/{eventAction}"]
    without a trailing period. *)
Theorem C8_empty_user_list (i : Input) :
  ∃ s, TableRow codeFallback i s
       ∧ (∀ s', TableRow codeFallback i s' → s' = s)
       ∧ formatComment [] i = " " +:+ s.
Proof.
  exists (actionOf i). split_and!.
  - apply actionOf_row.
  - intros s' Hs'. eapply TableRow_functional; [apply actionOf_row|done].
  - done.
Qed.

(** C8, as stated, fails on the table's last row: for a [push] event and
    no user the comment is not a space followed by the table's sentence. *)
Lemma C8_table_counterexample :
  ∃ i s, TableRow specFallback i s
         ∧ formatComment [] i = " Event: push/opened"
         ∧ formatComment [] i ≠ " " +:+ s.
Proof.
  exists pushInput, (specFallback "push" "opened"). split_and!.
  - by apply (row_other_event specFallback pushInput).
  - done.
  - done.
Qed.

(** C9. The comment depends on the input only through [eventName],
    [eventAction], [prMerged] and [reviewState]: two inputs that agree on
    these give the same comment for the same users, whatever their token,
    repository, pull request number, machine users and actor. *)
Theorem C9_comment_reads_four_fields (users : list string) (i1 i2 : Input) :
  eventName i1 = eventName i2 →
  eventAction i1 = eventAction i2 →
  prMerged i1 = prMerged i2 →
  reviewState i1 = reviewState i2 →
  formatComment users i1 = formatComment users i2.
Proof.
  intros Hn Ha Hm Hs. unfold formatComment, actionOf.
  by rewrite Hn, Ha, Hm, Hs.
Qed.

Lemma C9_comment_reads_four_fields_witness :
  (githubToken makeInput = ""
   ∧ githubToken otherRunInput = "ghs_secret"
   ∧ actor makeInput = "actor"
   ∧ actor otherRunInput = "mallory")
  ∧ formatComment ["user1"; "user2"] makeInput
    = formatComment ["user1"; "user2"] otherRunInput.
Proof.
  split; [done|].
  apply (C9_comment_reads_four_fields _ makeInput otherRunInput); reflexivity.
Defined.

(** ** The collector on concrete inputs *)

Lemma C6_collect_is_a_set_union_witness :
  let cs := [makeCommit (Some "user1") [Some "user1"; Some "bob"];
             makeCommit (Some "carol") [None]] in
  let rs := [makeReview "dan" "APPROVED"; makeReview "user1" "APPROVED"] in
  let us := [makeUser "user1"; makeUser "erin"] in
  collectUsersToNotify makeInput cs rs us
    = ["user1"; "bob"; "carol"; "dan"; "erin"]
  ∧ collectUsersToNotify makeInput (reverse cs) (reverse rs) (reverse us)
    = ["carol"; "user1"; "bob"; "dan"; "erin"]
  ∧ collectUsersToNotify makeInput cs rs us
    ≡ₚ collectUsersToNotify makeInput (reverse cs) (reverse rs) (reverse us)
  ∧ length (filter (λ x, x = "user1")
              (collectUsersToNotify makeInput cs rs us)) = 1.
Proof.
  intros cs rs us.
  destruct (C6_collect_is_a_set_union makeInput cs (reverse cs)
              rs (reverse rs) us (reverse us))
    as (_ & Hperm & _ & Honce); [by rewrite reverse_Permutation..|].
  split_and!; [by vm_compute | by vm_compute | exact Hperm |].
  apply Honce. by vm_compute; apply list_elem_of_here.
Defined.

Lemma C7_absent_identities_are_skipped_witness :
  let cs := [makeCommit None [None; Some "alice"; None];
             makeCommit None [None];
             makeCommit (Some "bob") []] in
  let cs' := [makeCommit (Some "alice") [Some "bob"]] in
  cs ≫= presentLogins = cs' ≫= presentLogins
  ∧ collectUsersToNotify makeInput cs [] [makeUser "carol"]
    = collectUsersToNotify makeInput cs' [] [makeUser "carol"]
  ∧ collectUsersToNotify makeInput cs [] [makeUser "carol"]
    = ["alice"; "bob"; "carol"].
Proof.
  intros cs cs'. split_and!.
  - reflexivity.
  - apply (C7_absent_identities_are_skipped makeInput cs cs'). reflexivity.
  - by vm_compute.
Defined.

Lemma C10_no_junk_witness :
  "approver1" ∈ collectUsersToNotify makeInput []
                  [makeReview "approver1" "APPROVED"] []
  ∧ Provenance "approver1" [] [makeReview "approver1" "APPROVED"] [].
Proof.
  assert ("approver1" ∈ collectUsersToNotify makeInput []
                          [makeReview "approver1" "APPROVED"] []) as H.
  { vm_compute. apply list_elem_of_here. }
  split; [exact H|]. exact (C10_no_junk _ _ _ _ _ H).
Defined.

(** The collector adds neither the actor nor a machine user of its own
    accord. *)
Corollary collect_adds_no_context_user (i : Input)
    (cs : list PullRequestCommit) (rs : list Review) (us : list User)
    (u : string) :
  ¬ Provenance u cs rs us → u ∉ collectUsersToNotify i cs rs us.
Proof.
  rewrite Provenance_sources, elem_of_collect. intros Hno Hu. apply Hno.
  destruct Hu as [? | [[_ ?] | ?]]; auto.
Qed.

(** A review whose state is not ["APPROVED"] letter for letter is not
    collected, also on a closed pull request. *)
Example review_state_is_case_sensitive :
  collectUsersToNotify makeInput []
    [makeReview "r1" "approved"; makeReview "r2" "Approved";
     makeReview "r3" "APPROVED"] [] = ["r3"].
Proof. by vm_compute. Qed.

(** ** The orchestrator *)

Lemma listMore_pages {A : Type} (fetch : string → Connection A)
    (p : Connection A) (ps : list (Connection A)) :
  pagesFrom fetch p ps →
  ∀ fuel cursor, p = fetch cursor → (length ps ≤ fuel)%nat →
  listMore fetch fuel cursor = Some (allNodes ps).
Proof.
  induction 1 as [p Hlast | p c ps Hnext Hps IH]; intros fuel cursor -> Hfuel.
  - destruct fuel as [|fuel]; simpl in *; [lia|].
    rewrite Hlast. unfold allNodes. simpl. by rewrite app_nil_r.
  - destruct fuel as [|fuel]; simpl in *; [lia|].
    rewrite Hnext, (IH fuel c); [done..|lia].
Qed.

Lemma paginate_pages {A : Type} (fetch : string → Connection A)
    (first : Connection A) (ps : list (Connection A)) (fuel : nat) :
  pagesFrom fetch first ps → (length ps ≤ S fuel)%nat →
  paginate fetch fuel first = Some (allNodes ps).
Proof.
  unfold paginate. destruct 1 as [p Hlast | p c ps Hnext Hps]; intros Hfuel.
  - rewrite Hlast. unfold allNodes. simpl. by rewrite app_nil_r.
  - rewrite Hnext, (listMore_pages fetch (fetch c) ps Hps fuel c);
      [done..|simpl in Hfuel; lia].
Qed.

(** The pages of a listing are determined by its first page. *)
Lemma pagesFrom_functional {A : Type} (fetch : string → Connection A)
    (p : Connection A) (ps ps' : list (Connection A)) :
  pagesFrom fetch p ps → pagesFrom fetch p ps' → ps = ps'.
Proof.
  intros H. revert ps'.
  induction H as [p Hlast | p c ps Hnext Hps IH]; intros ps' H';
    destruct H' as [p Hlast' | p c' ps' Hnext' Hps']; try congruence.
  f_equal. apply IH. congruence.
Qed.

(** C2. Whatever the number of pages of commits and of reviews, [run]
    hands to the collector the records of every page: the first page's,
    then those of each page a cursor leads to, as long as a page reports a
    next page with a cursor.  [run] asks [listCommits] ([listReviews]) once
    for the records after the first page, and that operation does the
    repetition; a number of requests that covers the pages suffices. *)
Theorem C2_run_collects_every_page (gh : GitHub) (fuel : nat) (input : Input)
    (commitPages : list (Connection PullRequestCommit))
    (reviewPages : list (Connection Review)) :
  pagesFrom (commitsAfter gh input)
    (prCommits (getPullRequest gh input)) commitPages →
  pagesFrom (reviewsAfter gh input)
    (prReviews (getPullRequest gh input)) reviewPages →
  (length commitPages ≤ S fuel)%nat →
  (length reviewPages ≤ S fuel)%nat →
  paginate (commitsAfter gh input) fuel (prCommits (getPullRequest gh input))
    = Some (allNodes commitPages)
  ∧ paginate (reviewsAfter gh input) fuel (prReviews (getPullRequest gh input))
    = Some (allNodes reviewPages)
  ∧ run gh fuel input
    = Some (notify gh input
              (collectUsersToNotify input (allNodes commitPages)
                 (allNodes reviewPages)
                 (prAssignees (getPullRequest gh input)))).
Proof.
  intros Hc Hr Hcf Hrf.
  pose proof (paginate_pages _ _ _ fuel Hc Hcf) as Ec.
  pose proof (paginate_pages _ _ _ fuel Hr Hrf) as Er.
  unfold run. by rewrite Ec, Er.
Qed.

Lemma C2_run_collects_every_page_witness :
  let commitPages :=
    [prCommits demoPullRequest; demoCommitPage "c1"; demoCommitPage "c2"] in
  let reviewPages := [prReviews demoPullRequest; demoReviewPage "r1"] in
  (pagesFrom demoCommitPage (prCommits demoPullRequest) commitPages
   ∧ pagesFrom demoReviewPage (prReviews demoPullRequest) reviewPages)
  ∧ allNodes commitPages
    = [makeCommit (Some "alice") [];
       makeCommit (Some "dave") [Some "alice"];
       makeCommit None [None; Some "erin"]]
  ∧ run demoGitHub 2 makeInput
    = Some [PostComment "@alice @dave @erin @frank @carol Merged the pull request.";
            Info "Comment posted: https://github.com/owner/repo/pull/1#issuecomment-1"].
Proof.
  intros commitPages reviewPages.
  assert (pagesFrom demoCommitPage (prCommits demoPullRequest) commitPages)
    as Hc.
  { apply (pages_more _ _ "c1"); [reflexivity|].
    apply (pages_more _ _ "c2"); [reflexivity|].
    apply pages_last. reflexivity. }
  assert (pagesFrom demoReviewPage (prReviews demoPullRequest) reviewPages)
    as Hr.
  { apply (pages_more _ _ "r1"); [reflexivity|].
    apply pages_last. reflexivity. }
  split; [by split|]. split; [reflexivity|].
  destruct (C2_run_collects_every_page demoGitHub 2 makeInput
              commitPages reviewPages Hc Hr) as (_ & _ & ->);
    [simpl; lia..|].
  by vm_compute.
Defined.

(** With too few requests allowed the model reports that it ran out, it
    does not return a shorter list. *)
Example run_out_of_requests : run demoGitHub 1 makeInput = None.
Proof. reflexivity. Qed.

(** The end-to-end scenario of the specification. *)
Example end_to_end_scenario :
  let input :=
    mkInput "" "owner" "repo" 1 ∅ "alice" "pull_request" "closed" true "" in
  let users :=
    collectUsersToNotify input [makeCommit (Some "alice") []]
      [makeReview "bob" "APPROVED"] [makeUser "carol"] in
  users = ["alice"; "bob"; "carol"]
  ∧ filterUsers users (actor input) (machineUsers input) = ["bob"; "carol"]
  ∧ formatComment (filterUsers users (actor input) (machineUsers input)) input
    = "@bob @carol Merged the pull request.".
Proof. by vm_compute. Qed.

(** ** Further properties of the collector *)

Lemma countedReviews_eqb (i : Input) (rs : list Review) :
  (if String.eqb (eventName i) "pull_request"
      && String.eqb (eventAction i) "closed"
   then approverLogins rs else [])
  = approverLogins (countedReviews i rs).
Proof.
  unfold countedReviews.
  destruct (_ && _) eqn:E; case_decide as H; try done.
  - apply closedPullRequest_eqb in E. by destruct H.
  - apply closedPullRequest_eqb in H. congruence.
Qed.

Lemma filter_all {A : Type} (P : A → Prop) `{!∀ x, Decision (P x)}
    (l : list A) :
  (∀ x, x ∈ l → P x) → filter P l = l.
Proof.
  induction l as [|x l IH]; intros Hall; [done|].
  rewrite filter_cons_True by (apply Hall, list_elem_of_here).
  f_equal. apply IH. intros y Hy. by apply Hall, list_elem_of_further.
Qed.

(** Adding a list to a set appends the first occurrences of the elements
    that are new. *)
Lemma addAll_firstOccurrences (xs : list string) (s : JsSet.t) :
  addAll xs s = s ++ filter (λ y, y ∉ s) (firstOccurrences xs).
Proof.
  revert s. induction xs as [|x xs IH]; intros s.
  - simpl. by rewrite app_nil_r.
  - change (addAll (x :: xs) s) with (addAll xs (JsSet.add x s)).
    rewrite IH. unfold JsSet.add, JsSet.has. simpl.
    rewrite filter_cons. case_bool_decide as Hx.
    + rewrite decide_False by (by intros ?).
      f_equal. rewrite list_filter_filter. apply list_filter_iff.
      intros y. split; [|tauto]. intros Hy. split; [done|]. by intros ->.
    + rewrite decide_True by done. rewrite <- app_assoc. simpl.
      do 2 f_equal. rewrite list_filter_filter. apply list_filter_iff.
      intros y. rewrite elem_of_app, list_elem_of_singleton. tauto.
Qed.

Lemma firstOccurrences_elem_of (u : string) (l : list string) :
  u ∈ firstOccurrences l ↔ u ∈ l.
Proof.
  induction l as [|x l IH]; [done|]. simpl.
  rewrite !elem_of_cons, list_elem_of_filter, IH.
  destruct (decide (u = x)); tauto.
Qed.

Lemma firstOccurrences_NoDup (l : list string) : NoDup (firstOccurrences l).
Proof.
  induction l as [|x l IH]; simpl; constructor.
  - rewrite list_elem_of_filter. by intros [? _].
  - by apply NoDup_filter.
Qed.

(** X1. The candidate set lists the usernames in the order of their first
    occurrence among the sources: committer and authors commit by commit,
    then the approvers (on a closed pull request), then the assignees. *)
Theorem collect_in_order_of_first_occurrence (i : Input)
    (cs : list PullRequestCommit) (rs : list Review) (us : list User) :
  JsSet.toArray (collectUsersToNotify i cs rs us)
  = firstOccurrences (sourceLogins cs (countedReviews i rs) us).
Proof.
  unfold JsSet.toArray, sourceLogins.
  rewrite collect_addAll, countedReviews_eqb, <- !addAll_app.
  rewrite addAll_firstOccurrences. simpl.
  apply filter_all. intros y _. apply not_elem_of_nil.
Qed.

(** X2. A username is in the candidate set exactly when it has a
    provenance, the reviews counting on a closed pull request only: so
    every present committer, every present author and every assignee is
    collected whatever the event. *)
Theorem collect_exactly_the_sources (i : Input)
    (cs : list PullRequestCommit) (rs : list Review) (us : list User)
    (u : string) :
  u ∈ collectUsersToNotify i cs rs us
  ↔ Provenance u cs (countedReviews i rs) us.
Proof.
  rewrite Provenance_sources, collect_addAll, countedReviews_eqb.
  rewrite !elem_of_addAll, elem_of_nil. tauto.
Qed.

(** X3. The collector reads the input through [eventName] and
    [eventAction] only; whether the pull request was merged plays no part,
    so the approvers of a pull request closed without merging are
    collected too. *)
Theorem collect_reads_two_fields (i1 i2 : Input)
    (cs : list PullRequestCommit) (rs : list Review) (us : list User) :
  eventName i1 = eventName i2 → eventAction i1 = eventAction i2 →
  collectUsersToNotify i1 cs rs us = collectUsersToNotify i2 cs rs us.
Proof. intros Hn Ha. by rewrite !collect_addAll, Hn, Ha. Qed.

Lemma collect_reads_two_fields_witness :
  let unmerged :=
    mkInput "t" "o" "r" 9 {["ci-bot"]} "bob" "pull_request" "closed" false
      "approved" in
  (prMerged makeInput = true ∧ prMerged unmerged = false)
  ∧ collectUsersToNotify makeInput [] [makeReview "approver1" "APPROVED"] []
    = collectUsersToNotify unmerged [] [makeReview "approver1" "APPROVED"] []
  ∧ collectUsersToNotify unmerged [] [makeReview "approver1" "APPROVED"] []
    = ["approver1"].
Proof.
  intros unmerged. split; [done|]. split; [|by vm_compute].
  apply (collect_reads_two_fields makeInput unmerged); reflexivity.
Defined.

(** X4. The users collected from the commits keep the head of the order:
    approvers and assignees only come after them. *)
Theorem collect_commits_come_first (i : Input)
    (cs : list PullRequestCommit) (rs : list Review) (us : list User) :
  JsSet.toArray (collectUsersToNotify i cs [] [])
  `prefix_of` JsSet.toArray (collectUsersToNotify i cs rs us).
Proof.
  unfold JsSet.toArray. rewrite !collect_addAll.
  assert (∀ xs s, s `prefix_of` addAll xs s) as Hpre.
  { intros xs s. rewrite addAll_firstOccurrences. by eexists. }
  change (approverLogins []) with (@nil string).
  replace (if _ && _ then [] else [])
    with (@nil string) by (by destruct (_ && _)).
  simpl. etrans; apply Hpre.
Qed.

(** ** Further properties of the filter *)

(** X5. Filtering twice with the same actor and machine users changes
    nothing more. *)
Theorem filterUsers_idempotent (users : JsSet.t) (a : string)
    (mu : gset string) :
  filterUsers (filterUsers users a mu) a mu = filterUsers users a mu.
Proof.
  rewrite (filterUsers_filter (filterUsers users a mu)).
  unfold JsSet.toArray. rewrite filterUsers_filter.
  rewrite list_filter_filter. apply list_filter_iff. tauto.
Qed.


(** X7. Who is notified: a username is in the filtered candidate set
    exactly when it has a provenance (the reviews counting on a closed pull
    request only) and is neither the actor, nor a [[bot]] account, nor a
    machine user; and nobody is listed twice. *)
Theorem notified_users (i : Input) (cs : list PullRequestCommit)
    (rs : list Review) (us : list User) :
  NoDup (filterUsers (collectUsersToNotify i cs rs us)
           (actor i) (machineUsers i))
  ∧ ∀ u, u ∈ filterUsers (collectUsersToNotify i cs rs us)
               (actor i) (machineUsers i)
         ↔ Provenance u cs (countedReviews i rs) us
           ∧ u ≠ actor i ∧ ¬ Contains "[bot]" u ∧ u ∉ machineUsers i.
Proof.
  split.
  - apply list_filter_NoDup, NoDup_collect.
  - intros u. rewrite filterUsers_filter, list_elem_of_filter.
    unfold JsSet.toArray.
    rewrite Provenance_sources, collect_addAll, countedReviews_eqb.
    rewrite !elem_of_addAll, elem_of_nil. tauto.
Qed.

(** ** Further properties of the formatter *)

Lemma afterFirstMention_space (rest : list string) (sentence : string) :
  ∃ t, afterFirstMention rest sentence = " " +:+ t.
Proof.
  destruct rest as [|v rest]; simpl; [by eexists|].
  by exists ("@" +:+ v +:+ afterFirstMention rest sentence).
Qed.

Lemma afterFirstMention_mentions (u : string) (rest : list string)
    (sentence : string) :
  u ∈ rest → Contains ("@" +:+ u +:+ " ") (afterFirstMention rest sentence).
Proof.
  induction rest as [|v rest IH]; intros Hu; [by apply elem_of_nil in Hu|].
  simpl. apply elem_of_cons in Hu as [-> | Hu].
  - destruct (afterFirstMention_space rest sentence) as [t ->].
    exists " ", t. by rewrite !append_assoc.
  - destruct (IH Hu) as (before & after & ->).
    exists (" @" +:+ v +:+ before), after. by rewrite !append_assoc.
Qed.

(** X8. Every user of the list is mentioned: ["@"], the username and a
    space occur in the comment. *)
Theorem formatComment_mentions_every_user (users : list string) (i : Input)
    (u : string) :
  u ∈ users → Contains ("@" +:+ u +:+ " ") (formatComment users i).
Proof.
  rewrite formatComment_mentionLine.
  destruct users as [|v rest]; intros Hu; [by apply elem_of_nil in Hu|].
  simpl. apply elem_of_cons in Hu as [-> | Hu].
  - destruct (afterFirstMention_space rest (actionOf i)) as [t ->].
    exists "", t. by rewrite !append_assoc.
  - destruct (afterFirstMention_mentions u rest (actionOf i) Hu)
      as (before & after & ->).
    exists ("@" +:+ v +:+ before), after. by rewrite !append_assoc.
Qed.

Lemma formatComment_mentions_every_user_witness :
  "c" ∈ ["a"; "b"; "c"]
  ∧ Contains "@c " (formatComment ["a"; "b"; "c"] makeInput)
  ∧ formatComment ["a"; "b"; "c"] makeInput
    = "@a @b @c Merged the pull request.".
Proof.
  assert ("c" ∈ ["a"; "b"; "c"]) as H
    by (do 2 apply list_elem_of_further; apply list_elem_of_here).
  split; [exact H|]. split; [|reflexivity].
  exact (formatComment_mentions_every_user _ makeInput "c" H).
Defined.

(** A comment for at least one user starts with a mention. *)
Lemma formatComment_starts_with_mention (users : list string) (i : Input) :
  users ≠ [] → String.prefix "@" (formatComment users i) = true.
Proof.
  rewrite formatComment_mentionLine. destruct users as [|u rest]; [done|].
  intros _. apply prefix_iff. by eexists.
Qed.

(** ** Further properties of the orchestrator *)

(** What [notify] does, by the emptiness of the filtered list. *)
Lemma notify_outcome (gh : GitHub) (input : Input) (users : JsSet.t) :
  let filtered := filterUsers users (actor input) (machineUsers input) in
  (filtered = [] ∧ notify gh input users
                   = [Info "No users to notify after filtering"])
  ∨ (filtered ≠ []
     ∧ notify gh input users
       = [PostComment (formatComment filtered input);
          Info ("Comment posted: "
                +:+ postComment gh input (formatComment filtered input))]).
Proof.
  intros filtered. unfold notify. fold filtered.
  destruct filtered as [|u rest]; [by left|by right].
Qed.

Lemma run_outcome (gh : GitHub) (fuel : nat) (input : Input)
    (effs : list Effect) :
  run gh fuel input = Some effs →
  effs = [Info "No users to notify after filtering"]
  ∨ ∃ users,
      users ≠ [] ∧ NoDup users
      ∧ (∀ u, u ∈ users →
              u ≠ actor input ∧ ¬ Contains "[bot]" u
              ∧ u ∉ machineUsers input)
      ∧ effs = [PostComment (formatComment users input);
                Info ("Comment posted: "
                      +:+ postComment gh input (formatComment users input))].
Proof.
  unfold run.
  destruct (paginate _ fuel (prCommits _)) as [commits|]; [|done].
  destruct (paginate _ fuel (prReviews _)) as [reviews|]; [|done].
  intros [= <-].
  set (pr := getPullRequest gh input).
  destruct (notify_outcome gh input
              (collectUsersToNotify input commits reviews (prAssignees pr)))
    as [[_ ->] | [Hne ->]]; [by left|right].
  eexists. split_and!; [exact Hne| | |done].
  - apply list_filter_NoDup, NoDup_collect.
  - intros u Hu. rewrite filterUsers_filter in Hu.
    by apply list_elem_of_filter in Hu as [? _].
Qed.

(** X9. A run that completes either posts nothing and logs that no user
    is left, or posts exactly one comment: the comment of a non-empty list
    of distinct users, none of them the actor, a [[bot]] account or a
    machine user, so that the comment starts with a mention. *)
Theorem run_posts_one_comment_or_none (gh : GitHub) (fuel : nat)
    (input : Input) (effs : list Effect) :
  run gh fuel input = Some effs →
  (effs = [Info "No users to notify after filtering"]
   ∧ postedComments effs = [])
  ∨ ∃ users,
      users ≠ [] ∧ NoDup users
      ∧ (∀ u, u ∈ users →
              u ≠ actor input ∧ ¬ Contains "[bot]" u
              ∧ u ∉ machineUsers input)
      ∧ postedComments effs = [formatComment users input]
      ∧ String.prefix "@" (formatComment users input) = true
      ∧ effs = [PostComment (formatComment users input);
                Info ("Comment posted: "
                      +:+ postComment gh input (formatComment users input))].
Proof.
  intros [-> | (users & Hne & Hnd & Hex & ->)]%run_outcome; [by left|right].
  exists users. split_and!; try done.
  by apply formatComment_starts_with_mention.
Qed.

Lemma run_posts_one_comment_or_none_witness :
  run demoGitHub 2 (withEvent makeInput "pull_request_review" "submitted")
  = Some [PostComment "@alice @dave @erin @carol A review was submitted.";
          Info "Comment posted: https://github.com/owner/repo/pull/1#issuecomment-1"]
  ∧ ∃ users,
      postedComments
        [PostComment "@alice @dave @erin @carol A review was submitted.";
         Info "Comment posted: https://github.com/owner/repo/pull/1#issuecomment-1"]
      = [formatComment users
           (withEvent makeInput "pull_request_review" "submitted")]
      ∧ users ≠ [].
Proof.
  assert (run demoGitHub 2
            (withEvent makeInput "pull_request_review" "submitted")
          = Some [PostComment "@alice @dave @erin @carol A review was submitted.";
                  Info "Comment posted: https://github.com/owner/repo/pull/1#issuecomment-1"])
    as Hrun by (by vm_compute).
  split; [exact Hrun|].
  destruct (run_posts_one_comment_or_none _ _ _ _ Hrun)
    as [[[=] _] | (users & Hne & _ & _ & Hposted & _)].
  by exists users.
Defined.

Lemma nextCursor_without_cursor (p : PageInfo) :
  endCursor p = None ∨ endCursor p = Some "" → nextCursor p = None.
Proof.
  unfold nextCursor. by intros [-> | ->]; destruct (hasNextPage p).
Qed.

(** X10. Without a usable cursor [run] asks for no further page of a
    listing, also when its first page reports a next page: a [null] or
    empty [endCursor] of the commits leaves the first page's commits as the
    whole list, whatever the collaborator would answer and whatever the
    reviews do; and the same for the reviews. *)
Theorem run_without_cursor (gh : GitHub) (fuel : nat) (input : Input) :
  ((endCursor (pageInfo (prCommits (getPullRequest gh input))) = None
    ∨ endCursor (pageInfo (prCommits (getPullRequest gh input))) = Some "") →
   run gh fuel input
   = (λ reviews,
        notify gh input
          (collectUsersToNotify input
             (nodes (prCommits (getPullRequest gh input)))
             reviews
             (prAssignees (getPullRequest gh input))))
     <$> paginate (reviewsAfter gh input) fuel
           (prReviews (getPullRequest gh input)))
  ∧ ((endCursor (pageInfo (prReviews (getPullRequest gh input))) = None
      ∨ endCursor (pageInfo (prReviews (getPullRequest gh input))) = Some "") →
     run gh fuel input
     = (λ commits,
          notify gh input
            (collectUsersToNotify input
               commits
               (nodes (prReviews (getPullRequest gh input)))
               (prAssignees (getPullRequest gh input))))
       <$> paginate (commitsAfter gh input) fuel
             (prCommits (getPullRequest gh input)))
  ∧ ((endCursor (pageInfo (prCommits (getPullRequest gh input))) = None
      ∨ endCursor (pageInfo (prCommits (getPullRequest gh input))) = Some "") →
     (endCursor (pageInfo (prReviews (getPullRequest gh input))) = None
      ∨ endCursor (pageInfo (prReviews (getPullRequest gh input))) = Some "") →
     run gh fuel input
     = Some (notify gh input
               (collectUsersToNotify input
                  (nodes (prCommits (getPullRequest gh input)))
                  (nodes (prReviews (getPullRequest gh input)))
                  (prAssignees (getPullRequest gh input))))).
Proof.
  split_and!.
  - intros Hc%nextCursor_without_cursor.
    unfold run. unfold paginate at 1. rewrite Hc.
    by destruct (paginate _ fuel (prReviews _)).
  - intros Hr%nextCursor_without_cursor.
    unfold run. destruct (paginate _ fuel (prCommits _)); [|done].
    unfold paginate. by rewrite Hr.
  - intros Hc%nextCursor_without_cursor Hr%nextCursor_without_cursor.
    unfold run, paginate. by rewrite Hc, Hr.
Qed.

Lemma run_without_cursor_witness :
  (hasNextPage (pageInfo (prCommits commitCursorlessPullRequest)) = true
   ∧ endCursor (pageInfo (prCommits commitCursorlessPullRequest)) = Some ""
   ∧ nextCursor (pageInfo (prReviews commitCursorlessPullRequest)) = Some "r1"
   ∧ run (githubOf commitCursorlessPullRequest) 1 makeInput
     = Some [PostComment "@alice @frank @carol Merged the pull request.";
             Info "Comment posted: https://github.com/owner/repo/pull/1#issuecomment-1"])
  ∧ (hasNextPage (pageInfo (prReviews reviewCursorlessPullRequest)) = true
     ∧ endCursor (pageInfo (prReviews reviewCursorlessPullRequest)) = None
     ∧ nextCursor (pageInfo (prCommits reviewCursorlessPullRequest)) = Some "c1"
     ∧ run (githubOf reviewCursorlessPullRequest) 2 makeInput
       = Some [PostComment "@alice @dave @erin @bob @carol Merged the pull request.";
               Info "Comment posted: https://github.com/owner/repo/pull/1#issuecomment-1"]).
Proof.
  split.
  - split_and!; [done..|].
    destruct (run_without_cursor (githubOf commitCursorlessPullRequest) 1
                makeInput) as (Hc & _ & _).
    rewrite Hc; [by vm_compute | by right].
  - split_and!; [done..|].
    destruct (run_without_cursor (githubOf reviewCursorlessPullRequest) 2
                makeInput) as (_ & Hr & _).
    rewrite Hr; [by vm_compute | by left].
Defined.

Lemma listMore_more_fuel {A : Type} (fetch : string → Connection A)
    (fuel fuel' : nat) (cursor : string) (l : list A) :
  listMore fetch fuel cursor = Some l → (fuel ≤ fuel')%nat →
  listMore fetch fuel' cursor = Some l.
Proof.
  revert fuel' cursor l.
  induction fuel as [|fuel IH]; intros fuel' cursor l; [done|].
  destruct fuel' as [|fuel']; [lia|]. simpl.
  destruct (nextCursor _) as [c|]; [|done].
  destruct (listMore fetch fuel c) as [rest|] eqn:E; [|done].
  intros [= <-] Hle. by rewrite (IH fuel' c rest E) by lia.
Qed.

Lemma paginate_more_fuel {A : Type} (fetch : string → Connection A)
    (fuel fuel' : nat) (first : Connection A) (l : list A) :
  paginate fetch fuel first = Some l → (fuel ≤ fuel')%nat →
  paginate fetch fuel' first = Some l.
Proof.
  unfold paginate. destruct (nextCursor _) as [c|]; [|done].
  destruct (listMore fetch fuel c) as [rest|] eqn:E; [|done].
  intros [= <-] Hle. by rewrite (listMore_more_fuel fetch fuel fuel' c rest E).
Qed.

(** The bound on the number of requests is an artefact of the embedding:
    once it suffices for a run to complete, a larger one changes
    nothing. *)
Lemma run_more_fuel (gh : GitHub) (fuel fuel' : nat) (input : Input)
    (effs : list Effect) :
  run gh fuel input = Some effs → (fuel ≤ fuel')%nat →
  run gh fuel' input = Some effs.
Proof.
  unfold run.
  destruct (paginate _ fuel (prCommits _)) as [commits|] eqn:Ec; [|done].
  destruct (paginate _ fuel (prReviews _)) as [reviews|] eqn:Er; [|done].
  intros H Hle.
  by rewrite (paginate_more_fuel _ fuel fuel' _ _ Ec Hle),
             (paginate_more_fuel _ fuel fuel' _ _ Er Hle).
Qed.

(** ** [main] *)

Lemma isCommentLine_iff (a : string) :
  isCommentLine a = true ↔ ∃ rest, a = "#" +:+ rest.
Proof. apply prefix_iff. Qed.

Lemma elem_of_machineUsers (inputs : ActionInputs) (context : Context)
    (u : string) :
  u ∈ machineUsers (buildInput inputs context)
  ↔ u ∈ inputMachineUsers inputs ∧ ¬ ∃ rest, u = "#" +:+ rest.
Proof.
  simpl. rewrite elem_of_list_to_set, list_elem_of_In, filter_In.
  rewrite <- list_elem_of_In, negb_true_iff, <- isCommentLine_iff.
  by rewrite not_true_iff_false.
Qed.

(** X12. The machine users of a run are the lines of the [machine_users]
    input that do not start with [#]: a line that does is a comment, and
    names no machine user, not even the username after the [#]. *)
Theorem main_machine_users (inputs : ActionInputs) (context : Context)
    (u : string) :
  (u ∈ machineUsers (buildInput inputs context)
   ↔ u ∈ inputMachineUsers inputs ∧ ¬ ∃ rest, u = "#" +:+ rest)
  ∧ (u ∈ machineUsers (buildInput inputs context)
     ↔ u ∈ machineUsers
             (buildInput
                (mkActionInputs (inputGithubToken inputs)
                   (("#" +:+ u) :: inputMachineUsers inputs))
                context)).
Proof.
  split; [apply elem_of_machineUsers|].
  rewrite !elem_of_machineUsers. simpl. rewrite elem_of_cons.
  split; [tauto|]. intros [[Hu | Hu] Hno]; [|done].
  destruct Hno. by eexists.
Qed.

(** X13. Every comment [main] posts is the comment of a non-empty list of
    users none of whom is the actor of the event or a [[bot]] account, and
    a user of the list who is named on a line of the [machine_users] input
    is named on a comment line. *)
Theorem main_notifies_no_excluded_user (gh : GitHub) (fuel : nat)
    (inputs : ActionInputs) (context : Context) (effs : list Effect)
    (body : string) :
  main gh fuel inputs context = Some effs →
  body ∈ postedComments effs →
  ∃ users,
    body = formatComment users (buildInput inputs context)
    ∧ users ≠ []
    ∧ ∀ u, u ∈ users →
           u ≠ contextActor context ∧ ¬ Contains "[bot]" u
           ∧ (u ∈ inputMachineUsers inputs → ∃ rest, u = "#" +:+ rest).
Proof.
  unfold main.
  intros [-> | (users & Hne & _ & Hex & ->)]%run_outcome Hbody.
  { by apply elem_of_nil in Hbody. }
  apply list_elem_of_singleton in Hbody as ->.
  exists users. split_and!; [done..|].
  intros u Hu. destruct (Hex u Hu) as (Ha & Hbot & Hmu).
  split_and!; [done..|]. intros Hline.
  destruct (isCommentLine u) eqn:E; [by apply isCommentLine_iff|].
  destruct Hmu. apply elem_of_machineUsers. split; [done|].
  intros H%isCommentLine_iff. congruence.
Qed.

Lemma main_notifies_no_excluded_user_witness :
  main demoGitHub 2 demoInputs demoContext
  = Some [PostComment "@dave @erin @carol Merged the pull request.";
          Info "Comment posted: https://github.com/owner/repo/pull/1#issuecomment-1"]
  ∧ "@dave @erin @carol Merged the pull request."
    ∈ postedComments
        [PostComment "@dave @erin @carol Merged the pull request.";
         Info "Comment posted: https://github.com/owner/repo/pull/1#issuecomment-1"]
  ∧ ∃ users,
      "@dave @erin @carol Merged the pull request."
      = formatComment users (buildInput demoInputs demoContext)
      ∧ users ≠ [].
Proof.
  assert (main demoGitHub 2 demoInputs demoContext
          = Some [PostComment "@dave @erin @carol Merged the pull request.";
                  Info "Comment posted: https://github.com/owner/repo/pull/1#issuecomment-1"])
    as Hmain by (by vm_compute).
  assert ("@dave @erin @carol Merged the pull request."
          ∈ postedComments
              [PostComment "@dave @erin @carol Merged the pull request.";
               Info "Comment posted: https://github.com/owner/repo/pull/1#issuecomment-1"])
    as Hbody by apply list_elem_of_here.
  split; [exact Hmain|]. split; [exact Hbody|].
  destruct (main_notifies_no_excluded_user _ _ _ _ _ _ Hmain Hbody)
    as (users & Heq & Hne & _).
  by exists users.
Defined.

(** X14. An event whose payload carries no action, no pull request and no
    review is formatted from the defaults ([""], not merged, [""]): a
    [pull_request] event reads ["Pull request ."], a [pull_request_review]
    event ["A review was submitted."], any other event
    ["Event: {eventName}/"]. *)
Theorem main_without_payload (inputs : ActionInputs)
    (owner repo actorName name : string) (users : list string) :
  formatComment users
    (buildInput inputs
       (mkContext owner repo actorName name (mkPayload None None None)))
  = mentionLine users
      (if decide (name = "pull_request") then "Pull request ."
       else if decide (name = "pull_request_review")
            then "A review was submitted."
            else "Event: " +:+ name +:+ "/").
Proof.
  rewrite formatComment_mentionLine. f_equal. unfold actionOf. simpl.
  destruct (String.eqb name "pull_request") eqn:E1.
  { apply eqb_true_iff in E1. by rewrite decide_True. }
  apply eqb_false_iff in E1. rewrite (decide_False _ _ E1).
  destruct (String.eqb name "pull_request_review") eqn:E2.
  { apply eqb_true_iff in E2. by rewrite decide_True. }
  apply eqb_false_iff in E2. rewrite (decide_False _ _ E2).
  reflexivity.
Qed.
